(** * Netify backend: the OMDb proxy routes and the auth routes

    Shallow embedding of the server routes of the Netify backend
    (movies router and auth router, [src/unnamed/part_001]).

    - JavaScript values reaching the JSON responses are modelled by [jsval];
      numbers produced by [parseFloat], [parseInt], [Number], [/] and
      [Math.ceil] are IEEE 754 doubles, modelled by [jsnum] (a finite
      double is [m * 2^e]); the conversions compute the exact value and
      round it to the nearest double, ties to even.
    - Strings are Stdlib [string]s (code units below 256).
    - The OMDb provider is a function from the request parameters to the
      response body, [None] standing for a rejection by axios (a network
      failure or an HTTP error status).
    - The MySQL pool is an explicit store (rows and AUTO_INCREMENT counter);
      the handlers return the list of statements they issued.  An INSERT
      whose values are longer than the columns declared by [initDatabase]
      ([src/unnamed/part_002]) fails, as it does under strict SQL mode. *)

From Stdlib Require Import ZArith List String Ascii Bool Lia.
Import ListNotations.
Open Scope string_scope.
Open Scope Z_scope.

(* ------------------------------------------------------------------ *)
(** ** JavaScript numbers and values *)

(** A double.  A finite one is [JFinite m e], the number [m * 2^e], kept
    with [e = 0] when it is an integer and with [m] odd otherwise.  The sign
    of zero is not kept: [-0] is falsy like [0] and [JSON.stringify] writes
    it [0]. *)
Inductive jsnum :=
| JNaN
| JInfinity (neg : bool)
| JFinite (m : Z) (e : Z).   (* the double m * 2^e *)

Inductive jsval :=
| JNull
| JUndefined
| JStr (s : string)
| JNum (n : jsnum).

(** JavaScript truthiness of an optional string property. *)
Definition truthy (o : option string) : bool :=
  match o with
  | Some s => negb (String.eqb s "")
  | None => false
  end.

(** A property read as is: [undefined] when absent. *)
Definition of_prop (o : option string) : jsval :=
  match o with
  | Some s => JStr s
  | None => JUndefined
  end.

(** White space and line terminators ([\s], [StrWhiteSpaceChar]) among the
    code units below 256. *)
Definition is_ws (c : ascii) : bool :=
  let n := nat_of_ascii c in
  (Nat.eqb n 9 || Nat.eqb n 10 || Nat.eqb n 11 || Nat.eqb n 12
   || Nat.eqb n 13 || Nat.eqb n 32 || Nat.eqb n 160)%bool.

Fixpoint trim_start (l : list ascii) : list ascii :=
  match l with
  | c :: r => if is_ws c then trim_start r else l
  | [] => []
  end.

Definition trim (l : list ascii) : list ascii :=
  rev (trim_start (rev (trim_start l))).

(** Value of a digit character in radix [r] (letters are 10..35). *)
Definition digit_val (r : Z) (c : ascii) : option Z :=
  let n := Z.of_nat (nat_of_ascii c) in
  let v :=
    if (48 <=? n) && (n <=? 57) then n - 48
    else if (97 <=? n) && (n <=? 122) then n - 87
    else if (65 <=? n) && (n <=? 90) then n - 55
    else 99 in
  if v <? r then Some v else None.

(** Longest run of radix-[r] digits at the front. *)
Fixpoint take_digits (r : Z) (l : list ascii) : list Z * list ascii :=
  match l with
  | c :: rest =>
      match digit_val r c with
      | Some v => let (ds, l') := take_digits r rest in (v :: ds, l')
      | None => ([], l)
      end
  | [] => ([], [])
  end.

Definition digits_value (r : Z) (ds : list Z) : Z :=
  fold_left (fun acc d => acc * r + d) ds 0.

Definition prefix_of (p : string) (l : list ascii) : option (list ascii) :=
  let lp := list_ascii_of_string p in
  if list_eq_dec ascii_dec (firstn (List.length lp) l) lp
  then Some (skipn (List.length lp) l) else None.

(** Sign at the front: [true] for ['-']. *)
Definition take_sign (l : list ascii) : bool * list ascii :=
  match l with
  | "-"%char :: r => (true, r)
  | "+"%char :: r => (false, r)
  | _ => (false, l)
  end.

(** Exponent part [e[+-]digits]; consumed only when digits follow. *)
Definition take_exponent (l : list ascii) : Z * list ascii :=
  match l with
  | c :: r =>
      if (Ascii.eqb c "e" || Ascii.eqb c "E")%bool then
        let (neg, r1) := take_sign r in
        match take_digits 10 r1 with
        | ([], _) => (0, l)
        | (ds, r2) => ((if neg then -1 else 1) * digits_value 10 ds, r2)
        end
      else (0, l)
  | [] => (0, [])
  end.

(** Longest [StrUnsignedDecimalLiteral] (without [Infinity]) at the front:
    digits, an optional dot and digits, an optional exponent.  Returns the
    mantissa, the decimal exponent and the rest. *)
Definition decimal_prefix (l : list ascii) : option (Z * Z * list ascii) :=
  let (ip, r1) := take_digits 10 l in
  let (fp, r2) :=
    match r1 with
    | "."%char :: r => take_digits 10 r
    | _ => ([], r1)
    end in
  match ip, fp with
  | [], [] => None
  | _, _ =>
      let (ex, r3) := take_exponent r2 in
      Some (digits_value 10 (ip ++ fp), ex - Z.of_nat (List.length fp), r3)
  end.

Definition negate (neg : bool) (m : Z) : Z := if neg then - m else m.

(** [floor (log2 (p / q))] for positive [p] and [q]. *)
Definition floor_log2_ratio (p q : Z) : Z :=
  let L := Z.log2 p - Z.log2 q in
  if (if 0 <=? L then q * 2 ^ L <=? p else q <=? p * 2 ^ (- L)) then L else L - 1.

(** The positive rational [p / q] rounded to binary64 (53-bit significand,
    least exponent [-1074]), to nearest, ties to even: [Some (n, k)] for the
    double [n * 2^k], [None] when the rounded value reaches [2^1024]
    (overflow to Infinity). *)
Definition round_binary64 (p q : Z) : option (Z * Z) :=
  let k := Z.max (-1074) (floor_log2_ratio p q - 52) in
  let num := p * 2 ^ Z.max 0 (- k) in
  let den := q * 2 ^ Z.max 0 k in
  let n0 := num / den in
  let r := num mod den in
  let n := if (den <? 2 * r) || ((2 * r =? den) && Z.odd n0) then n0 + 1 else n0 in
  if 2 ^ 1024 * 2 ^ Z.max 0 (- k) <=? n * 2 ^ Z.max 0 k then None else Some (n, k).

(** Removes up to [d] factors 2 from [n]. *)
Fixpoint strip2 (d : nat) (n : Z) : Z * nat :=
  match d with
  | O => (n, O)
  | S d' => if Z.even n then strip2 d' (Z.div2 n) else (n, d)
  end.

(** The double [n * 2^k] in the form [jsnum] keeps. *)
Definition dyadic (n k : Z) : jsnum :=
  let (n', d) := strip2 (Z.to_nat (- k)) (n * 2 ^ Z.max 0 k) in
  JFinite n' (- Z.of_nat d).

(** The Number value of [p / q] (negated when [neg]) for [p >= 0], [q > 0]:
    the ECMAScript conversion of a mathematical value to a Number. *)
Definition number_of_ratio (neg : bool) (p q : Z) : jsnum :=
  if p =? 0 then JFinite 0 0
  else match round_binary64 p q with
       | None => JInfinity neg
       | Some (n, k) => dyadic (negate neg n) k
       end.

(** The Number value of the decimal [m * 10^e] (negated when [neg]). *)
Definition number_of_decimal (neg : bool) (m e : Z) : jsnum :=
  if 0 <=? e then number_of_ratio neg (m * 10 ^ e) 1
  else number_of_ratio neg m (10 ^ (- e)).

(** [parseFloat(s)] on a string. *)
Definition parseFloat (s : string) : jsnum :=
  let (neg, l) := take_sign (trim_start (list_ascii_of_string s)) in
  match prefix_of "Infinity" l with
  | Some _ => JInfinity neg
  | None =>
      match decimal_prefix l with
      | Some (m, e, _) => number_of_decimal neg m e
      | None => JNaN
      end
  end.

(** [parseInt(s)] with no radix argument: radix 16 after a [0x]/[0X]
    prefix, radix 10 otherwise; the integer the digits denote, rounded to
    the nearest double. *)
Definition parseInt (s : string) : jsnum :=
  let (neg, l) := take_sign (trim_start (list_ascii_of_string s)) in
  let '(r, l') :=
    match prefix_of "0x" l, prefix_of "0X" l with
    | Some l1, _ => (16, l1)
    | None, Some l1 => (16, l1)
    | None, None => (10, l)
    end in
  match take_digits r l' with
  | ([], _) => JNaN
  | (ds, _) => number_of_decimal neg (digits_value r ds) 0
  end.

(** Non-decimal literal [0x..], [0o..], [0b..] filling the whole string. *)
Definition radix_literal (l : list ascii) : option jsnum :=
  let try_radix p r :=
    match prefix_of p l with
    | Some l1 =>
        match take_digits r l1 with
        | ([], _) => Some JNaN
        | (ds, []) => Some (number_of_decimal false (digits_value r ds) 0)
        | _ => Some JNaN
        end
    | None => None
    end in
  match try_radix "0x" 16 with Some n => Some n | None =>
  match try_radix "0X" 16 with Some n => Some n | None =>
  match try_radix "0o" 8 with Some n => Some n | None =>
  match try_radix "0O" 8 with Some n => Some n | None =>
  match try_radix "0b" 2 with Some n => Some n | None =>
    try_radix "0B" 2 end end end end end.

(** [ToNumber] applied to a string ([StringToNumber]). *)
Definition StringToNumber (s : string) : jsnum :=
  let t := trim (list_ascii_of_string s) in
  match t with
  | [] => JFinite 0 0
  | _ =>
      match radix_literal t with
      | Some n => n
      | None =>
          let (neg, l) := take_sign t in
          match prefix_of "Infinity" l with
          | Some [] => JInfinity neg
          | Some _ => JNaN
          | None =>
              match decimal_prefix l with
              | Some (m, e, []) => number_of_decimal neg m e
              | _ => JNaN
              end
          end
      end
  end.

(** [x / 10] on a number: the exact quotient rounded to a double. *)
Definition div10 (x : jsnum) : jsnum :=
  match x with
  | JFinite m e =>
      number_of_ratio (m <? 0) (Z.abs m * 2 ^ Z.max 0 e) (10 * 2 ^ Z.max 0 (- e))
  | _ => x
  end.

(** [Math.ceil] (the ceiling of a double is a double). *)
Definition Math_ceil (x : jsnum) : jsnum :=
  match x with
  | JFinite m e =>
      if 0 <=? e then JFinite (m * 2 ^ e) 0
      else JFinite (- (Z.div (- m) (2 ^ (- e)))) 0
  | _ => x
  end.

(** [n || d] on a number: [NaN] and zero are falsy. *)
Definition num_or (n d : jsnum) : jsnum :=
  match n with
  | JNaN => d
  | JFinite 0 _ => d
  | _ => n
  end.

(* ------------------------------------------------------------------ *)
(** ** OMDb payloads *)

(** An item of the [Search] array of an OMDb search response. *)
Record searchItem := mkSearchItem { item_imdbID : option string }.

(** An OMDb response body: every property optional, strings as OMDb sends
    them ([Search] is kept when it is an array). *)
Record omdb := mkOmdb {
  Title : option string;
  Year : option string;
  imdbID : option string;
  Plot : option string;
  Poster : option string;
  imdbRating : option string;
  imdbVotes : option string;
  Genre : option string;
  Runtime : option string;
  Director : option string;
  Actors : option string;
  Response : option string;
  Error : option string;
  Search : option (list searchItem);
  totalResults : option string
}.

Definition empty_omdb : omdb :=
  mkOmdb None None None None None None None None None None None
         None None None None.

(** The object built by [formatMovie]. *)
Record Movie := mkMovie {
  id : jsval;
  title : jsval;
  overview : jsval;
  posterPath : jsval;
  backdropPath : jsval;
  releaseDate : jsval;
  rating : jsval;
  voteCount : jsval;
  genre : jsval;
  runtime : jsval;
  director : jsval;
  actors : jsval
}.

Definition not_NA (o : option string) : bool :=
  match o with
  | Some s => truthy o && negb (String.eqb s "N/A")
  | None => false
  end.

(** [s.replace(/,/g, '')] *)
Definition remove_commas (s : string) : string :=
  string_of_list_ascii
    (filter (fun c => negb (Ascii.eqb c ","%char)) (list_ascii_of_string s)).

(** [formatMovie] *)
Definition formatMovie (movie : omdb) : Movie :=
  let rating :=
    match imdbRating movie with
    | Some s => if not_NA (imdbRating movie) then JNum (parseFloat s) else JNull
    | None => JNull
    end in
  let year :=
    match Year movie with
    | Some s => if not_NA (Year movie) then JStr s else JNull
    | None => JNull
    end in
  {| id := if truthy (imdbID movie) then of_prop (imdbID movie)
           else of_prop (Title movie);
     title := of_prop (Title movie);
     overview := match Plot movie with
                 | Some s => if not_NA (Plot movie) then JStr s
                             else JStr "No description available."
                 | None => JStr "No description available."
                 end;
     posterPath := match Poster movie with
                   | Some s => if not_NA (Poster movie) then JStr s else JNull
                   | None => JNull
                   end;
     backdropPath := match Poster movie with
                     | Some s => if not_NA (Poster movie) then JStr s else JNull
                     | None => JNull
                     end;
     releaseDate := year;
     rating := rating;
     voteCount := match imdbVotes movie with
                  | Some s => if truthy (imdbVotes movie)
                              then JNum (parseInt (remove_commas s)) else JNull
                  | None => JNull
                  end;
     genre := if truthy (Genre movie) then of_prop (Genre movie) else JStr "";
     runtime := of_prop (Runtime movie);
     director := of_prop (Director movie);
     actors := of_prop (Actors movie) |}.

(* ------------------------------------------------------------------ *)
(** ** Provider client *)

(** The query parameters of the calls the routes make (besides [apikey]):
    [{t, type:'movie'}], [{i}] and [{s, type:'movie', page}]. *)
Inductive call :=
| CallTitle (t : string)
| CallId (i : option string)
| CallSearch (s : string) (page : string).

(** The provider: the body it answers for a call, [None] when axios
    rejects the request itself (a network failure, or an HTTP status
    outside 2xx). *)
Definition provider := call -> option omdb.

(** Why [fetchFromOMDB] rejects: axios's own rejection, whose message
    (set by axios or by Node, e.g. ["getaddrinfo ENOTFOUND ..."]) is not
    modelled, or the [Error] thrown on [Response === 'False']. *)
Inductive fetch_error :=
| AxiosError
| OMDbError (message : string).

(** [fetchFromOMDB]: rejects on an axios failure and on
    [Response === 'False']. *)
Definition fetchFromOMDB (prov : provider) (c : call) : fetch_error + omdb :=
  match prov c with
  | None => inl AxiosError
  | Some data =>
      match Response data with
      | Some "False" =>
          inl (OMDbError (if truthy (Error data)
               then match Error data with Some e => e | None => "" end
               else "OMDb API Error"))
      | _ => inr data
      end
  end.

(** An entry of the array given to [Promise.all]: [null], [undefined]
    (a callback that falls off its end) or a formatted movie. *)
Inductive slot :=
| SNull
| SUndefined
| SMovie (m : Movie).

(** [results.filter(movie => movie !== null)] *)
Definition drop_null (l : list slot) : list slot :=
  filter (fun x => match x with SNull => false | _ => true end) l.

(** The per-title callback of [fetchMoviesByTitles]. *)
Definition fetch_title (prov : provider) (t : string) : slot :=
  match fetchFromOMDB prov (CallTitle t) with
  | inl _ => SNull
  | inr data => if truthy (Title data) then SMovie (formatMovie data)
                else SUndefined
  end.

(** [fetchMoviesByTitles]; [Promise.all] keeps the order of the array. *)
Definition fetchMoviesByTitles (prov : provider) (titles : list string)
  : list slot :=
  drop_null (map (fetch_title prov) titles).

(* ------------------------------------------------------------------ *)
(** ** Responses *)

(** The JSON bodies the routes send. *)
Inductive body :=
| BError (message : string)                          (* {success:false, message} *)
| BMovies (page totalPages totalResults : jsnum) (movies : list slot)
| BRegistered (message : string) (userId : Z)
| BLoggedIn (message : string) (user_id : Z) (user_name : string)
            (user_email : string) (user_phone : option string).

Record response := mkResponse { status : Z; body_of : body }.

Definition success (b : body) : bool :=
  match b with BError _ => false | _ => true end.

Definition reply (st : Z) (b : body) : response := mkResponse st b.

(* ------------------------------------------------------------------ *)
(** ** GET /api/movies/search *)

(** [!OMDB_API_KEY || OMDB_API_KEY === 'your-omdb-api-key'] *)
Definition key_missing (OMDB_API_KEY : option string) : bool :=
  negb (truthy OMDB_API_KEY)
  || match OMDB_API_KEY with
     | Some k => String.eqb k "your-omdb-api-key"
     | None => false
     end.

(** The per-hit callback of the detail stage. *)
Definition fetch_detail (prov : provider) (item : searchItem) : slot :=
  match fetchFromOMDB prov (CallId (item_imdbID item)) with
  | inl _ => SNull
  | inr details => SMovie (formatMovie details)
  end.

(** [searchData.Search.slice(0, 8)] when [Search] is an array. *)
Definition limitedResults (searchData : omdb) : list searchItem :=
  match Search searchData with
  | Some l => firstn 8 l
  | None => []
  end.

(** [Math.ceil((searchData.totalResults || 0) / 10)] *)
Definition search_totalPages (searchData : omdb) : jsnum :=
  Math_ceil (div10 (match totalResults searchData with
                    | Some s => if truthy (Some s) then StringToNumber s
                                else JFinite 0 0
                    | None => JFinite 0 0
                    end)).

(** [parseInt(searchData.totalResults) || 0] *)
Definition search_totalResults (searchData : omdb) : jsnum :=
  num_or (match totalResults searchData with
          | Some s => parseInt s
          | None => JNaN
          end) (JFinite 0 0).

(** The route handler; returns the response and the provider calls issued,
    in the order they are issued. *)
Definition search (OMDB_API_KEY : option string) (prov : provider)
    (query page : option string) : response * list call :=
  if negb (truthy query) then
    (reply 400 (BError "Search query is required"), [])
  else if key_missing OMDB_API_KEY then
    (reply 500 (BError "OMDb API key not configured"), [])
  else
    let q := match query with Some q => q | None => "" end in
    let c0 := CallSearch q (if truthy page
                            then match page with Some p => p | None => "" end
                            else "1") in
    match fetchFromOMDB prov c0 with
    | inl _ => (reply 500 (BError "Failed to search movies"), [c0])
    | inr searchData =>
        let items := limitedResults searchData in
        let movies := drop_null (map (fetch_detail prov) items) in
        (reply 200
           (BMovies (num_or (match page with
                             | Some p => parseInt p
                             | None => JNaN
                             end) (JFinite 1 0))
                    (search_totalPages searchData)
                    (search_totalResults searchData)
                    movies),
         c0 :: map (fun item => CallId (item_imdbID item)) items)
    end.

(* ------------------------------------------------------------------ *)
(** ** Auth routes and the users table *)

(** A row of [users]: columns [id], [username], [email], [password] (the
    bcrypt hash) and [phone]. *)
Record user := mkUser {
  u_id : Z;
  u_username : string;
  u_email : string;
  u_password : string;
  u_phone : option string
}.

(** The table and its AUTO_INCREMENT counter. *)
Record store := mkStore { rows : list user; next_id : Z }.

(** The statements the handlers send to the pool. *)
Inductive stmt :=
| SelectIdByEmail (e : string)       (* SELECT id FROM users WHERE email = ? *)
| SelectUserByEmail (e : string)     (* SELECT id, username, ... WHERE email = ? *)
| InsertUser (u : user).             (* INSERT INTO users ... *)

Definition get (o : option string) : string :=
  match o with Some s => s | None => "" end.

(** Characters of [[^\s@]]. *)
Definition plain_char (c : ascii) : bool :=
  negb (is_ws c) && negb (Ascii.eqb c "@"%char).

Fixpoint split_at_at (l : list ascii) : option (list ascii * list ascii) :=
  match l with
  | [] => None
  | c :: r =>
      if Ascii.eqb c "@"%char then Some ([], r)
      else match split_at_at r with
           | Some (a, b) => Some (c :: a, b)
           | None => None
           end
  end.

(** [/^[^\s@]+@[^\s@]+\.[^\s@]+$/.test(s)]: one ['@'] with a non-empty
    local part before it, and after it a domain with a dot that has a
    character on each side; no white space and no other ['@']. *)
Definition emailRegex_test (s : string) : bool :=
  match split_at_at (list_ascii_of_string s) with
  | Some (a, b) =>
      match a, b with
      | _ :: _, _ :: rest =>
          forallb plain_char a && forallb plain_char b
          && existsb (fun c => Ascii.eqb c "."%char) (removelast rest)
      | _, _ => false
      end
  | None => false
  end.

(** Whether the INSERT of [row] is accepted by the [users] table that
    [initDatabase] creates: [username] and [email] are VARCHAR(100),
    [password] VARCHAR(255) and [phone] VARCHAR(20). Under strict SQL
    mode (MySQL's default since 5.7) a longer value makes the INSERT fail
    instead of being truncated. The lengths count characters, which here
    are ASCII. The UNIQUE key on [email] uses the same comparison as the
    lookup before it, which [register] has just found empty. *)
Definition row_fits (row : user) : bool :=
  (String.length (u_username row) <=? 100)%nat
  && (String.length (u_email row) <=? 100)%nat
  && (String.length (u_password row) <=? 255)%nat
  && match u_phone row with
     | Some p => (String.length p <=? 20)%nat
     | None => true
     end.

Section Auth.

(** The comparison of the [email] column under the table's collation. *)
Variable email_eq : string -> string -> bool.
(** [bcrypt.hash(password, SALT_ROUNDS)] and [bcrypt.compare]. *)
Variable bcrypt_hash : string -> string.
Variable bcrypt_compare : string -> string -> bool.

Definition select_by_email (st : store) (e : string) : list user :=
  filter (fun u => email_eq (u_email u) e) (rows st).

(** POST /api/register: the response, the store afterwards and the
    statements issued. *)
Definition register (st : store)
    (username email password phone : option string)
    : response * store * list stmt :=
  if negb (truthy username && truthy email && truthy password) then
    (reply 400 (BError "Username, email, and password are required"), st, [])
  else if negb (emailRegex_test (get email)) then
    (reply 400 (BError "Please provide a valid email address"), st, [])
  else if (Z.of_nat (String.length (get password)) <? 6) then
    (reply 400 (BError "Password must be at least 6 characters long"), st, [])
  else
    let existingUsers := select_by_email st (get email) in
    if 0 <? Z.of_nat (List.length existingUsers) then
      (reply 409 (BError "Email already registered"), st,
       [SelectIdByEmail (get email)])
    else
      let hashedPassword := bcrypt_hash (get password) in
      let row := mkUser (next_id st) (get username) (get email) hashedPassword
                        (if truthy phone then phone else None) in
      if row_fits row then
        (reply 201 (BRegistered "User registered successfully" (next_id st)),
         mkStore (rows st ++ [row]) (next_id st + 1),
         [SelectIdByEmail (get email); InsertUser row])
      else
        (* the INSERT throws; the catch answers 500 *)
        (reply 500 (BError "Internal server error during registration"), st,
         [SelectIdByEmail (get email); InsertUser row]).

(** POST /api/login: the response and the statements issued. *)
Definition login (st : store) (email password : option string)
    : response * list stmt :=
  if negb (truthy email && truthy password) then
    (reply 400 (BError "Email and password are required"), [])
  else
    let users := select_by_email st (get email) in
    match users with
    | [] => (reply 401 (BError "Invalid email or password"),
             [SelectUserByEmail (get email)])
    | user :: _ =>
        if bcrypt_compare (get password) (u_password user) then
          (reply 200 (BLoggedIn "Login successful" (u_id user)
                        (u_username user) (u_email user) (u_phone user)),
           [SelectUserByEmail (get email)])
        else
          (reply 401 (BError "Invalid email or password"),
           [SelectUserByEmail (get email)])
    end.

End Auth.

(* ------------------------------------------------------------------ *)
(** ** Helper predicates for the statements *)

(** A property that is absent, empty or the OMDb sentinel ["N/A"]. *)
Definition sentinel (o : option string) : Prop :=
  o = None \/ o = Some "" \/ o = Some "N/A".

Definition is_digit (c : ascii) : bool :=
  match digit_val 10 c with Some _ => true | None => false end.

(** A non-empty string of decimal digits (the way OMDb sends counts). *)
Definition is_digits (s : string) : bool :=
  match list_ascii_of_string s with
  | [] => false
  | l => forallb is_digit l
  end.

(** The integer a digit string denotes. *)
Definition decimal_value (s : string) : Z :=
  digits_value 10 (fst (take_digits 10 (list_ascii_of_string s))).

(* ------------------------------------------------------------------ *)
(** ** Lemmas on the normalizer *)

Lemma not_NA_Some s : not_NA (Some s) = true -> s <> "" /\ s <> "N/A".
Proof.
  unfold not_NA, truthy. intros H.
  apply andb_prop in H as [H1 H2].
  apply negb_true_iff in H1, H2.
  apply String.eqb_neq in H1, H2. auto.
Qed.

Lemma sentinel_not_NA o : sentinel o -> not_NA o = false.
Proof. intros [-> | [-> | ->]]; reflexivity. Qed.

Lemma sanitized_prop o d :
  let v := match o with
           | Some s => if not_NA o then JStr s else d
           | None => d
           end in
  (sentinel o -> v = d) /\ (d <> JStr "N/A" -> v <> JStr "N/A").
Proof.
  cbv zeta. split.
  - intros Hs. pose proof (sentinel_not_NA o Hs) as Hn.
    destruct o; [rewrite Hn|]; reflexivity.
  - intros Hd. destruct o as [s|]; [|exact Hd].
    destruct (not_NA (Some s)) eqn:Hn; [|exact Hd].
    apply not_NA_Some in Hn as [_ Hn].
    intros Heq. injection Heq. exact Hn.
Qed.

Lemma rating_shape o :
  let v := match o with
           | Some s => if not_NA o then JNum (parseFloat s) else JNull
           | None => JNull
           end in
  (v = JNull <-> sentinel o)
  /\ (forall s, o = Some s -> s <> "" -> s <> "N/A" -> v = JNum (parseFloat s)).
Proof.
  cbv zeta. unfold sentinel. split.
  - destruct o as [s|].
    + destruct (not_NA (Some s)) eqn:Hn.
      * apply not_NA_Some in Hn as [H1 H2]. split; [discriminate|].
        intros [H | [H | H]]; congruence.
      * split; [intros _|reflexivity].
        unfold not_NA, truthy in Hn.
        destruct (String.eqb s "") eqn:E1.
        -- apply String.eqb_eq in E1. subst. auto.
        -- destruct (String.eqb s "N/A") eqn:E2; [|discriminate].
           apply String.eqb_eq in E2. subst. auto.
    + split; auto.
  - intros s -> H1 H2.
    unfold not_NA, truthy.
    apply String.eqb_neq in H1, H2. rewrite H1, H2. reflexivity.
Qed.

(* ------------------------------------------------------------------ *)
(** ** Lemmas on digit strings *)

Lemma digit_not_ws c : is_digit c = true -> is_ws c = false.
Proof.
  destruct c as [[] [] [] [] [] [] [] []]; intros H; cbv in H |- *; congruence.
Qed.

Lemma take_sign_digit c r : is_digit c = true -> take_sign (c :: r) = (false, c :: r).
Proof.
  destruct c as [[] [] [] [] [] [] [] []]; intros H; cbv in H;
    solve [discriminate | reflexivity].
Qed.

Lemma trim_start_digits l : forallb is_digit l = true -> trim_start l = l.
Proof.
  destruct l as [|c r]; [reflexivity|]. simpl. intros H.
  apply andb_prop in H as [H _]. rewrite (digit_not_ws c H). reflexivity.
Qed.

Lemma forallb_rev {A} (f : A -> bool) l : forallb f (rev l) = forallb f l.
Proof.
  induction l as [|a l IH]; [reflexivity|].
  simpl. rewrite forallb_app, IH. simpl. rewrite andb_true_r, andb_comm. reflexivity.
Qed.

Lemma trim_digits l : forallb is_digit l = true -> trim l = l.
Proof.
  intros H. unfold trim. rewrite (trim_start_digits l H).
  rewrite trim_start_digits by (rewrite forallb_rev; exact H).
  apply rev_involutive.
Qed.

Lemma prefix_of_digits p l :
  forallb is_digit l = true ->
  forallb is_digit (list_ascii_of_string p) = false ->
  prefix_of p l = None.
Proof.
  unfold prefix_of. cbv zeta. intros Hl Hp.
  destruct list_eq_dec as [E|]; [|reflexivity]. exfalso.
  rewrite <- (firstn_skipn (List.length (list_ascii_of_string p)) l) in Hl.
  rewrite forallb_app in Hl. apply andb_prop in Hl as [Hl _].
  rewrite E in Hl. congruence.
Qed.

Lemma take_digits_digits l :
  forallb is_digit l = true ->
  exists ds, take_digits 10 l = (ds, []) /\ List.length ds = List.length l.
Proof.
  induction l as [|c r IH]; intros H.
  - exists []. split; reflexivity.
  - simpl in H. apply andb_prop in H as [Hc Hr].
    destruct (IH Hr) as [ds [Ht Hlen]].
    unfold is_digit in Hc. destruct (digit_val 10 c) as [v|] eqn:Hv; [|discriminate].
    exists (v :: ds). simpl. rewrite Hv, Ht. split; [reflexivity|]. simpl. congruence.
Qed.

Lemma radix_literal_digits l : forallb is_digit l = true -> radix_literal l = None.
Proof.
  intros H. unfold radix_literal. cbv beta zeta.
  repeat rewrite (prefix_of_digits _ l H) by reflexivity.
  reflexivity.
Qed.

Lemma StringToNumber_digits s :
  is_digits s = true -> StringToNumber s = number_of_decimal false (decimal_value s) 0.
Proof.
  unfold is_digits, decimal_value, StringToNumber.
  destruct (list_ascii_of_string s) as [|c r] eqn:E; [discriminate|].
  intros H. rewrite (trim_digits _ H), (radix_literal_digits _ H).
  pose proof H as Hc. simpl in Hc. apply andb_prop in Hc as [Hc _].
  rewrite (take_sign_digit c r Hc).
  rewrite (prefix_of_digits "Infinity" _ H) by reflexivity.
  destruct (take_digits_digits _ H) as [ds [Ht Hlen]].
  unfold decimal_prefix. rewrite Ht.
  destruct ds as [|d ds]; [discriminate|].
  simpl. rewrite app_nil_r. reflexivity.
Qed.

Lemma parseInt_digits s :
  is_digits s = true -> parseInt s = number_of_decimal false (decimal_value s) 0.
Proof.
  unfold is_digits, decimal_value, parseInt.
  destruct (list_ascii_of_string s) as [|c r] eqn:E; [discriminate|].
  intros H. rewrite (trim_start_digits _ H).
  pose proof H as Hc. simpl in Hc. apply andb_prop in Hc as [Hc _].
  rewrite (take_sign_digit c r Hc).
  rewrite (prefix_of_digits "0x" _ H), (prefix_of_digits "0X" _ H) by reflexivity.
  destruct (take_digits_digits _ H) as [ds [Ht Hlen]].
  rewrite Ht. destruct ds as [|d ds]; [discriminate|]. reflexivity.
Qed.

(* ------------------------------------------------------------------ *)
(** ** Lemmas on the double conversions *)

Lemma strip2_exact j x : strip2 j (x * 2 ^ Z.of_nat j) = (x, O).
Proof.
  revert x. induction j as [|j IH]; intros x.
  - simpl. rewrite Z.mul_1_r. reflexivity.
  - rewrite Nat2Z.inj_succ, Z.pow_succ_r by lia. cbn [strip2].
    replace (x * (2 * 2 ^ Z.of_nat j)) with (2 * (x * 2 ^ Z.of_nat j)) by ring.
    rewrite Z.even_mul. change (Z.even 2) with true. cbn [orb].
    rewrite Z.div2_div, (Z.mul_comm 2), Z.div_mul by lia.
    apply IH.
Qed.

Lemma ceil_dyadic n j :
  Math_ceil (dyadic n (- Z.of_nat j)) = JFinite (- ((- n) / 2 ^ Z.of_nat j)) 0.
Proof.
  unfold dyadic. rewrite Z.opp_involutive, Nat2Z.id.
  replace (Z.max 0 (- Z.of_nat j)) with 0 by lia. rewrite Z.mul_1_r.
  revert n. induction j as [|j IH]; intros n.
  - simpl. rewrite Z.mul_1_r, Z.div_1_r, Z.opp_involutive. reflexivity.
  - cbn [strip2]. destruct (Z.even n) eqn:Ev.
    + rewrite IH. f_equal. f_equal.
      rewrite Nat2Z.inj_succ, Z.pow_succ_r by lia.
      pose proof (Z.even_spec n) as [Hs _]. destruct (Hs Ev) as [m ->].
      rewrite Z.div2_div, Z.mul_comm, Z.div_mul by lia.
      replace (- (m * 2)) with ((- m) * 2) by ring.
      rewrite <- Z.div_div by lia. rewrite Z.div_mul by lia. reflexivity.
    + cbn -[Z.pow Z.of_nat]. 
      replace (0 <=? - Z.of_nat (S j)) with false by (symmetry; apply Z.leb_gt; lia).
      rewrite Z.opp_involutive. reflexivity.
Qed.

Lemma floor_log2_ratio_le p q : floor_log2_ratio p q <= Z.log2 p - Z.log2 q.
Proof.
  unfold floor_log2_ratio. cbv zeta.
  destruct (if 0 <=? _ then _ else _); lia.
Qed.

Lemma log2_lt_53 N : 0 < N < 2 ^ 53 -> Z.log2 N <= 52.
Proof.
  intros H. apply Z.lt_succ_r. apply Z.log2_lt_pow2; lia.
Qed.

(** Integers of magnitude at most 2^53 are doubles. *)
Lemma number_of_decimal_int N :
  0 <= N <= 2 ^ 53 -> number_of_decimal false N 0 = JFinite N 0.
Proof.
  intros HN.
  destruct (Z.eq_dec N (2 ^ 53)) as [->|Hne]; [vm_compute; reflexivity|].
  unfold number_of_decimal. change (0 <=? 0) with true. cbv iota.
  rewrite Z.pow_0_r, Z.mul_1_r. unfold number_of_ratio.
  destruct (Z.eqb_spec N 0) as [->|Hz]; [reflexivity|].
  unfold round_binary64.
  pose proof (floor_log2_ratio_le N 1) as Hf.
  pose proof (log2_lt_53 N ltac:(lia)) as Hl.
  change (Z.log2 1) with 0 in Hf.
  generalize dependent (floor_log2_ratio N 1). intros f Hf.
  assert (Hj : Z.max (-1074) (f - 52) = - Z.of_nat (Z.to_nat (- Z.max (-1074) (f - 52))))
    by lia.
  revert Hj. generalize (Z.to_nat (- Z.max (-1074) (f - 52))). intros j Hj.
  rewrite Hj, Z.opp_involutive.
  replace (Z.max 0 (Z.of_nat j)) with (Z.of_nat j) by lia.
  replace (Z.max 0 (- Z.of_nat j)) with 0 by lia.
  rewrite Z.pow_0_r, !Z.mul_1_r, Z.div_1_r, Z.mod_1_r. cbv zeta.
  assert (Hb : ((1 <? 2 * 0) || ((2 * 0 =? 1) && Z.odd (N * 2 ^ Z.of_nat j)))%bool = false)
    by reflexivity.
  rewrite Hb.
  assert (Hov : (2 ^ 1024 * 2 ^ Z.of_nat j <=? N * 2 ^ Z.of_nat j) = false).
  { apply Z.leb_gt. apply Z.mul_lt_mono_pos_r; [apply Z.pow_pos_nonneg; lia|].
    apply (Z.le_lt_trans _ (2 ^ 53)); [lia|]. apply Z.pow_lt_mono_r; lia. }
  rewrite Hov. unfold negate, dyadic.
  rewrite Z.opp_involutive, Nat2Z.id.
  replace (Z.max 0 (- Z.of_nat j)) with 0 by lia.
  rewrite Z.pow_0_r, Z.mul_1_r, strip2_exact. reflexivity.
Qed.

Lemma ceil_round_tenth N T : 0 <= N -> 8 <= T ->
  let n0 := N * T / 10 in
  let r := (N * T) mod 10 in
  let n := if ((10 <? 2 * r) || ((2 * r =? 10) && Z.odd n0))%bool then n0 + 1 else n0 in
  - ((- n) / T) = (N + 9) / 10.
Proof.
  intros HN HT. cbv zeta.
  pose proof (Z.div_mod (N * T) 10 ltac:(lia)) as E1.
  pose proof (Z.mod_pos_bound (N * T) 10 ltac:(lia)) as B1.
  set (n0 := N * T / 10) in *. set (r := (N * T) mod 10) in *.
  pose proof (Z.div_mod N 10 ltac:(lia)) as E2.
  pose proof (Z.mod_pos_bound N 10 ltac:(lia)) as B2.
  set (a := N / 10) in *. set (f := N mod 10) in *.
  assert (Hc : (N + 9) / 10 = a + (if f =? 0 then 0 else 1)).
  { symmetry. apply Z.div_unique with (r := if f =? 0 then f + 9 else f - 1);
      destruct (Z.eqb_spec f 0); lia. }
  rewrite Hc.
  set (n := if ((10 <? 2 * r) || ((2 * r =? 10) && Z.odd n0))%bool then n0 + 1 else n0).
  assert (Hup : n = n0 \/ n = n0 + 1) by (unfold n; destruct (_ || _)%bool; auto).
  assert (Hup1 : n = n0 + 1 -> 5 <= r)
    by (unfold n; destruct (Z.ltb_spec 10 (2 * r)), (Z.eqb_spec (2 * r) 10);
        simpl; lia).
  assert (Hup0 : n = n0 -> 5 < r -> False)
    by (unfold n; destruct (Z.ltb_spec 10 (2 * r)); simpl; lia).
  assert (Hprod : N * T = 10 * (a * T) + f * T) by (rewrite E2 at 1; ring).
  clearbody n n0 r a f.
  destruct (Z.eqb_spec f 0) as [Hf|Hf].
  - rewrite Hf in Hprod.
    assert (r = 0 /\ n0 = a * T) as [Hr Hn0] by lia.
    assert (Hn : n = a * T).
    { destruct Hup as [Hq | Hq]; [lia|]. specialize (Hup1 Hq). lia. }
    rewrite Hn. replace (- (a * T)) with ((- a) * T) by ring.
    rewrite Z.div_mul by lia. lia.
  - assert (f * T >= T) by nia. assert (f * T <= 9 * T) by nia.
    assert (Hn : a * T < n <= (a + 1) * T).
    { destruct Hup as [Hq|Hq].
      + split; [|nia].
        destruct (Z.eq_dec n0 (a * T)); [|nia].
        exfalso. apply (Hup0 Hq). nia.
      + specialize (Hup1 Hq). nia. }
    assert (Hq : (- n) / T = - (a + 1)).
    { symmetry. apply Z.div_unique with (r := (a + 1) * T - n); lia. }
    rewrite Hq. lia.
Qed.

Lemma ceil_div10_int N :
  0 <= N <= 2 ^ 53 -> Math_ceil (div10 (JFinite N 0)) = JFinite ((N + 9) / 10) 0.
Proof.
  intros HN.
  destruct (Z.eq_dec N (2 ^ 53)) as [->|Hne]; [vm_compute; reflexivity|].
  destruct (Z.eq_dec N 0) as [->|Hz]; [reflexivity|].
  unfold div10. rewrite Z.abs_eq by lia.
  replace (N <? 0) with false by (symmetry; apply Z.ltb_ge; lia).
  change (Z.max 0 0) with 0. change (Z.max 0 (- 0)) with 0.
  rewrite Z.pow_0_r, !Z.mul_1_r.
  unfold number_of_ratio.
  replace (N =? 0) with false by (symmetry; apply Z.eqb_neq; lia).
  unfold round_binary64.
  pose proof (floor_log2_ratio_le N 10) as Hf.
  pose proof (log2_lt_53 N ltac:(lia)) as Hl.
  change (Z.log2 10) with 3 in Hf.
  generalize dependent (floor_log2_ratio N 10). intros fl Hf.
  assert (Hj : Z.max (-1074) (fl - 52) = - Z.of_nat (Z.to_nat (- Z.max (-1074) (fl - 52))))
    by lia.
  assert (Hj3 : (3 <= Z.to_nat (- Z.max (-1074) (fl - 52)))%nat) by lia.
  revert Hj Hj3. generalize (Z.to_nat (- Z.max (-1074) (fl - 52))). intros j Hj Hj3.
  rewrite Hj, Z.opp_involutive.
  replace (Z.max 0 (Z.of_nat j)) with (Z.of_nat j) by lia.
  replace (Z.max 0 (- Z.of_nat j)) with 0 by lia.
  rewrite Z.pow_0_r, !Z.mul_1_r. cbv zeta.
  assert (HT : 8 <= 2 ^ Z.of_nat j).
  { change 8 with (2 ^ 3). apply Z.pow_le_mono_r; lia. }
  pose proof (ceil_round_tenth N (2 ^ Z.of_nat j) ltac:(lia) HT) as Hc.
  cbv zeta in Hc.
  set (T := 2 ^ Z.of_nat j) in *.
  set (n := if ((10 <? 2 * ((N * T) mod 10)) || ((2 * ((N * T) mod 10) =? 10)
                 && Z.odd (N * T / 10)))%bool
            then N * T / 10 + 1 else N * T / 10) in *.
  assert (Hov : (2 ^ 1024 * T <=? n) = false).
  { apply Z.leb_gt.
    assert (n <= N * T / 10 + 1) by (unfold n; destruct (_ || _)%bool; lia).
    assert (N * T / 10 <= N * T) by (apply Z.div_le_upper_bound; nia).
    assert (N + 1 <= 2 ^ 1024).
    { assert (2 ^ 53 < 2 ^ 1024) by (apply Z.pow_lt_mono_r; lia). lia. }
    nia. }
  rewrite Hov. unfold negate. rewrite ceil_dyadic. fold T. rewrite Hc. reflexivity.
Qed.

Lemma digit_val_nonneg r c v : digit_val r c = Some v -> 0 <= v.
Proof.
  unfold digit_val. cbv zeta.
  destruct ((48 <=? _) && (_ <=? 57))%bool eqn:E1;
    [|destruct ((97 <=? _) && (_ <=? 122))%bool eqn:E2;
      [|destruct ((65 <=? _) && (_ <=? 90))%bool eqn:E3]];
    (destruct (_ <? r); [|discriminate]); intros H; injection H as <-;
    try lia; apply andb_prop in E1 || apply andb_prop in E2 || apply andb_prop in E3;
    match goal with H : _ /\ _ |- _ => destruct H as [H _]; apply Z.leb_le in H end; lia.
Qed.

Lemma take_digits_nonneg r l ds l' :
  take_digits r l = (ds, l') -> Forall (fun d => 0 <= d) ds.
Proof.
  revert ds l'. induction l as [|c rest IH]; intros ds l' H; simpl in H.
  - injection H as <- _. constructor.
  - destruct (digit_val r c) as [v|] eqn:Hv.
    + destruct (take_digits r rest) as [ds' l''] eqn:Ht. injection H as <- _.
      constructor; [exact (digit_val_nonneg r c v Hv)|]. exact (IH _ _ eq_refl).
    + injection H as <- _. constructor.
Qed.

Lemma digits_value_nonneg r ds :
  0 <= r -> Forall (fun d => 0 <= d) ds -> 0 <= digits_value r ds.
Proof.
  intros Hr Hds. unfold digits_value.
  assert (G : forall acc, 0 <= acc -> 0 <= fold_left (fun acc d => acc * r + d) ds acc).
  { induction Hds as [|d ds Hd Hds IH]; intros acc Ha; simpl; [exact Ha|].
    apply IH. nia. }
  apply G. lia.
Qed.

Lemma decimal_value_nonneg s : 0 <= decimal_value s.
Proof.
  unfold decimal_value.
  destruct (take_digits 10 (list_ascii_of_string s)) as [ds l'] eqn:Ht.
  apply digits_value_nonneg; [lia|]. exact (take_digits_nonneg _ _ _ _ Ht).
Qed.

Lemma StringToNumber_digits_small s :
  is_digits s = true -> decimal_value s <= 2 ^ 53 ->
  StringToNumber s = JFinite (decimal_value s) 0.
Proof.
  intros Hd Hb. rewrite (StringToNumber_digits s Hd).
  apply number_of_decimal_int. pose proof (decimal_value_nonneg s). lia.
Qed.

Lemma parseInt_digits_small s :
  is_digits s = true -> decimal_value s <= 2 ^ 53 ->
  parseInt s = JFinite (decimal_value s) 0.
Proof.
  intros Hd Hb. rewrite (parseInt_digits s Hd).
  apply number_of_decimal_int. pose proof (decimal_value_nonneg s). lia.
Qed.

(* ------------------------------------------------------------------ *)
(** ** The record normalizer ([formatMovie]) *)

(** A provider record whose [Genre] and [imdbID] carry the sentinel. *)
Definition na_record : omdb :=
  {| Title := Some "Inception"; Year := Some "2010"; imdbID := Some "N/A";
     Plot := Some "N/A"; Poster := Some "N/A"; imdbRating := Some "N/A";
     imdbVotes := Some "N/A"; Genre := Some "N/A"; Runtime := Some "N/A";
     Director := Some "N/A"; Actors := Some "N/A"; Response := Some "True";
     Error := None; Search := None; totalResults := None |}.

(** C1 (counterexample): the sentinel ["N/A"] in [imdbID], [Genre],
    [Runtime], [Director] or [Actors] reaches the normalized movie as is. *)
Lemma formatMovie_leaks_NA :
  id (formatMovie na_record) = JStr "N/A"
  /\ genre (formatMovie na_record) = JStr "N/A"
  /\ runtime (formatMovie na_record) = JStr "N/A"
  /\ director (formatMovie na_record) = JStr "N/A"
  /\ actors (formatMovie na_record) = JStr "N/A".
Proof. repeat split. Qed.

(** C1 (amended): [formatMovie] maps an absent, empty or ["N/A"] [Plot],
    [Poster], [Year] and [imdbRating] to the placeholder overview, to null
    poster and backdrop, to a null release date and to a null rating; none of
    [overview], [posterPath], [backdropPath], [releaseDate] is ever the
    string ["N/A"] and [rating] and [voteCount] are never strings.  The
    other fields pass the provider's strings through: [id] is [imdbID] or,
    when that is absent or empty, [Title]; [genre] is [Genre] or [""]; [title],
    [runtime], [director] and [actors] are copied. *)
Theorem formatMovie_sentinel_policy (r : omdb) :
  let m := formatMovie r in
  (sentinel (Plot r) -> overview m = JStr "No description available.")
  /\ (sentinel (Poster r) -> posterPath m = JNull /\ backdropPath m = JNull)
  /\ (sentinel (Year r) -> releaseDate m = JNull)
  /\ (sentinel (imdbRating r) -> rating m = JNull)
  /\ overview m <> JStr "N/A" /\ posterPath m <> JStr "N/A"
  /\ backdropPath m <> JStr "N/A" /\ releaseDate m <> JStr "N/A"
  /\ (forall s, rating m <> JStr s) /\ (forall s, voteCount m <> JStr s)
  /\ id m = (if truthy (imdbID r) then of_prop (imdbID r) else of_prop (Title r))
  /\ title m = of_prop (Title r)
  /\ genre m = (if truthy (Genre r) then of_prop (Genre r) else JStr "")
  /\ runtime m = of_prop (Runtime r) /\ director m = of_prop (Director r)
  /\ actors m = of_prop (Actors r).
Proof.
  cbv zeta. destruct r as [T Y I P Po R V G Ru D A Re E S TR]. simpl.
  destruct (sanitized_prop P (JStr "No description available.")) as [P1 P2].
  destruct (sanitized_prop Po JNull) as [Po1 Po2].
  destruct (sanitized_prop Y JNull) as [Y1 Y2].
  destruct (rating_shape R) as [[_ R1] _].
  repeat split; auto; try discriminate;
    try solve [apply P2; discriminate | apply Po2; discriminate
              | apply Y2; discriminate].
  - intros s. destruct R as [x|]; [destruct (not_NA (Some x))|]; discriminate.
  - intros s. destruct V as [x|]; [destruct (truthy (Some x))|]; discriminate.
Qed.

(** C8: the poster and the backdrop of a normalized movie are the same
    value, both computed from the single [Poster] property. *)
Theorem formatMovie_poster_eq_backdrop (r : omdb) :
  posterPath (formatMovie r) = backdropPath (formatMovie r).
Proof. reflexivity. Qed.




(* ------------------------------------------------------------------ *)
(** ** The batch fetcher and the search route *)

(** The array [fetchMoviesByTitles] resolves to is the per-title slots in
    the order of the titles, with the [null] ones removed. *)
Lemma fetchMoviesByTitles_stable (prov : provider) (titles : list string) :
  fetchMoviesByTitles prov titles
  = flat_map (fun t => match fetch_title prov t with
                       | SNull => []
                       | x => [x]
                       end) titles.
Proof.
  unfold fetchMoviesByTitles, drop_null.
  induction titles as [|t ts IH]; [reflexivity|].
  simpl. rewrite IH. destruct (fetch_title prov t); reflexivity.
Qed.

(** A successful OMDb body with no [Title]. *)
Definition untitled_body : omdb :=
  {| Title := None; Year := None; imdbID := None; Plot := None;
     Poster := None; imdbRating := None; imdbVotes := None; Genre := None;
     Runtime := None; Director := None; Actors := None;
     Response := Some "True"; Error := None; Search := None;
     totalResults := None |}.

(** A search body with one hit. *)
Definition one_hit_body : omdb :=
  {| Title := None; Year := None; imdbID := None; Plot := None;
     Poster := None; imdbRating := None; imdbVotes := None; Genre := None;
     Runtime := None; Director := None; Actors := None;
     Response := Some "True"; Error := None;
     Search := Some [mkSearchItem (Some "tt0000001")];
     totalResults := Some "1" |}.

(** A provider whose detail answers carry no [Title]. *)
Definition untitled_provider : provider :=
  fun c => match c with
           | CallSearch _ _ => Some one_hit_body
           | _ => Some untitled_body
           end.

(** C2 (code bug): a key whose answer has no [Title] is not dropped.
    The callback of [fetchMoviesByTitles] falls off its end and yields
    [undefined], which survives the [!== null] filter; the detail stage of
    the search route has no title check and keeps a movie with an
    undefined title. *)
Theorem batch_keeps_untitled :
  fetchMoviesByTitles untitled_provider ["Inception"] = [SUndefined]
  /\ exists pg tp tr m calls,
       search (Some "secret") untitled_provider (Some "incep") None
       = (reply 200 (BMovies pg tp tr [SMovie m]), calls)
       /\ title m = JUndefined.
Proof.
  split; [reflexivity|].
  do 5 eexists. split; reflexivity.
Qed.

Lemma is_digits_truthy s : is_digits s = true -> truthy (Some s) = true.
Proof. destruct s; [discriminate | reflexivity]. Qed.

Lemma search_totals_digits (searchData : omdb) (s : string) :
  totalResults searchData = Some s -> is_digits s = true ->
  decimal_value s <= 2 ^ 53 ->
  search_totalPages searchData = JFinite ((decimal_value s + 9) / 10) 0
  /\ search_totalResults searchData = JFinite (decimal_value s) 0.
Proof.
  intros Ht Hd Hb. pose proof (decimal_value_nonneg s) as Hn.
  unfold search_totalPages, search_totalResults. rewrite Ht.
  rewrite (is_digits_truthy s Hd), (StringToNumber_digits_small s Hd Hb),
          (parseInt_digits_small s Hd Hb).
  split.
  - apply ceil_div10_int. lia.
  - destruct (decimal_value s); reflexivity.
Qed.

(** A search answer reporting more results than doubles count exactly. *)
Definition huge_total_search : omdb :=
  {| Title := None; Year := None; imdbID := None; Plot := None;
     Poster := None; imdbRating := None; imdbVotes := None; Genre := None;
     Runtime := None; Director := None; Actors := None;
     Response := Some "True"; Error := None; Search := Some [];
     totalResults := Some "10000000000000000000001" |}.

Definition huge_total_provider : provider := fun _ => Some huge_total_search.

(** C4 (counterexample): the totals are computed in doubles; for a reported
    total [N = 10^22 + 1] the route answers [totalResults] [10^22] and
    [totalPages] [10^21], not [N] and [ceil(N / 10) = 10^21 + 1]. *)
Lemma search_totals_rounded :
  body_of (fst (search (Some "secret") huge_total_provider (Some "batman") None))
  = BMovies (JFinite 1 0) (JFinite (10 ^ 21) 0) (JFinite (10 ^ 22) 0) []
  /\ decimal_value "10000000000000000000001" = 10 ^ 22 + 1
  /\ (decimal_value "10000000000000000000001" + 9) / 10 = 10 ^ 21 + 1.
Proof. vm_compute. repeat split. Qed.

(** C4 (amended): when the search route answers 200, it made one search
    call and then one detail call per hit of [searchData.Search.slice(0, 8)]
    (at most 8, a prefix of the provider's hits); its [totalPages] and
    [totalResults] are computed from the provider's [totalResults] alone:
    for a digit string denoting [N <= 2^53] they are [ceil(N / 10)] and
    [N], and both are 0 when the provider reports none. *)
Theorem search_caps_details_and_paginates
    (OMDB_API_KEY : option string) (prov : provider) (query page : option string)
    (resp : response) (calls : list call) :
  search OMDB_API_KEY prov query page = (resp, calls) ->
  status resp = 200 ->
  exists searchData pageArg pg movies,
    fetchFromOMDB prov (CallSearch (get query) pageArg) = inr searchData
    /\ calls = CallSearch (get query) pageArg
               :: map (fun item => CallId (item_imdbID item))
                      (limitedResults searchData)
    /\ (List.length (limitedResults searchData) <= 8)%nat
    /\ (forall hits, Search searchData = Some hits ->
                     limitedResults searchData = firstn 8 hits)
    /\ body_of resp = BMovies pg (search_totalPages searchData)
                              (search_totalResults searchData) movies
    /\ (forall s, totalResults searchData = Some s -> is_digits s = true ->
          decimal_value s <= 2 ^ 53 ->
          search_totalPages searchData = JFinite ((decimal_value s + 9) / 10) 0
          /\ search_totalResults searchData = JFinite (decimal_value s) 0)
    /\ (totalResults searchData = None ->
          search_totalPages searchData = JFinite 0 0
          /\ search_totalResults searchData = JFinite 0 0).
Proof.
  unfold search.
  destruct (truthy query); simpl.
  2: { intros H; injection H as <- _. discriminate. }
  destruct (key_missing OMDB_API_KEY).
  { intros H; injection H as <- _. discriminate. }
  match goal with
  | |- context [fetchFromOMDB prov (CallSearch ?q ?p)] =>
      destruct (fetchFromOMDB prov (CallSearch q p)) as [err|sd] eqn:Hf
  end.
  { intros H; injection H as <- _. discriminate. }
  intros H _. injection H as <- <-.
  do 4 eexists. split; [exact Hf|].
  split; [reflexivity|].
  split.
  { unfold limitedResults. destruct (Search sd); [apply firstn_le_length|].
    simpl. lia. }
  split.
  { intros hits Hs. unfold limitedResults. rewrite Hs. reflexivity. }
  split; [reflexivity|].
  split; [apply search_totals_digits|].
  intros Hn. unfold search_totalPages, search_totalResults. rewrite Hn.
  split; reflexivity.
Qed.

(** C9: a search with no query, or an empty one, is answered 400 before
    the API key is looked at and without any provider call. *)
Theorem search_requires_query
    (OMDB_API_KEY : option string) (prov : provider) (query page : option string) :
  query = None \/ query = Some "" ->
  search OMDB_API_KEY prov query page
  = (reply 400 (BError "Search query is required"), [])
  /\ success (BError "Search query is required") = false.
Proof.
  intros [-> | ->]; split; reflexivity.
Qed.

(* ------------------------------------------------------------------ *)
(** ** The auth routes *)

Lemma truthy_Some s : s <> "" -> truthy (Some s) = true.
Proof. intros H. unfold truthy. apply String.eqb_neq in H. rewrite H. reflexivity. Qed.

(** C3: once both fields are given, a login with an email that has no row
    and a login with an email that has a row but a password that does not
    match its hash get the same response: 401 with the same message. *)
Theorem login_hides_account_existence
    (email_eq : string -> string -> bool) (bcrypt_compare : string -> string -> bool)
    (st : store) (e1 e2 p1 p2 : string) (u : user) (rest : list user) :
  select_by_email email_eq st e1 = [] ->
  select_by_email email_eq st e2 = u :: rest ->
  bcrypt_compare p2 (u_password u) = false ->
  e1 <> "" -> e2 <> "" -> p1 <> "" -> p2 <> "" ->
  fst (login email_eq bcrypt_compare st (Some e1) (Some p1))
  = fst (login email_eq bcrypt_compare st (Some e2) (Some p2))
  /\ fst (login email_eq bcrypt_compare st (Some e1) (Some p1))
     = reply 401 (BError "Invalid email or password").
Proof.
  intros H1 H2 Hc He1 He2 Hp1 Hp2. unfold login.
  rewrite (truthy_Some e1 He1), (truthy_Some e2 He2),
          (truthy_Some p1 Hp1), (truthy_Some p2 Hp2). simpl.
  rewrite H1, H2, Hc. split; reflexivity.
Qed.

(** C10: a login whose email or password is the empty string is answered
    400 with ["Email and password are required"] and no statement is sent
    to the store. *)
Theorem login_empty_field_is_missing
    (email_eq : string -> string -> bool) (bcrypt_compare : string -> string -> bool)
    (st : store) (email password : option string) :
  email = Some "" \/ password = Some "" ->
  login email_eq bcrypt_compare st email password
  = (reply 400 (BError "Email and password are required"), []).
Proof.
  intros [-> | ->]; unfold login.
  - reflexivity.
  - simpl truthy at 2. rewrite andb_false_r. reflexivity.
Qed.

(** C6: a registration missing a field, with an email not of the shape
    [local@domain.tld], or with a password shorter than 6 characters is
    answered 400 with the store untouched and no statement sent (so the
    length check comes before the uniqueness lookup). *)
Theorem register_validates_before_store
    (email_eq : string -> string -> bool) (bcrypt_hash : string -> string)
    (st : store) (username email password phone : option string) :
  truthy username = false \/ truthy email = false \/ truthy password = false
  \/ emailRegex_test (get email) = false
  \/ (String.length (get password) < 6)%nat ->
  let '(resp, st', stmts) :=
    register email_eq bcrypt_hash st username email password phone in
  status resp = 400 /\ success (body_of resp) = false /\ st' = st /\ stmts = [].
Proof.
  intros H. unfold register.
  destruct (truthy username) eqn:Hu, (truthy email) eqn:He,
           (truthy password) eqn:Hp; simpl;
    try (repeat split; reflexivity).
  destruct H as [H | [H | [H | [H | H]]]]; try discriminate.
  - rewrite H. simpl. repeat split.
  - destruct (emailRegex_test (get email)); simpl; [|repeat split].
    assert (Hl : (Z.of_nat (String.length (get password)) <? 6) = true)
      by (apply Z.ltb_lt; lia).
    rewrite Hl. repeat split.
Qed.

Section RegisterLemmas.

Variable email_eq : string -> string -> bool.
Variable bcrypt_hash : string -> string.
Variables (username email password phone : option string).
Hypothesis Hu : truthy username = true.
Hypothesis He : truthy email = true.
Hypothesis Hp : truthy password = true.
Hypothesis Hre : emailRegex_test (get email) = true.
Hypothesis Hlen : (6 <= String.length (get password))%nat.

Lemma register_valid_lookup (st : store) :
  register email_eq bcrypt_hash st username email password phone
  = let existingUsers := select_by_email email_eq st (get email) in
    if 0 <? Z.of_nat (List.length existingUsers) then
      (reply 409 (BError "Email already registered"), st,
       [SelectIdByEmail (get email)])
    else
      let row := mkUser (next_id st) (get username) (get email)
                        (bcrypt_hash (get password))
                        (if truthy phone then phone else None) in
      if row_fits row then
        (reply 201 (BRegistered "User registered successfully" (next_id st)),
         mkStore (rows st ++ [row]) (next_id st + 1),
         [SelectIdByEmail (get email); InsertUser row])
      else
        (reply 500 (BError "Internal server error during registration"), st,
         [SelectIdByEmail (get email); InsertUser row]).
Proof.
  unfold register. rewrite Hu, He, Hp, Hre. simpl.
  assert (Hl : (Z.of_nat (String.length (get password)) <? 6) = false)
    by (apply Z.ltb_ge; lia).
  rewrite Hl. reflexivity.
Qed.






End RegisterLemmas.



(* ------------------------------------------------------------------ *)
(** ** Concrete instances *)

Definition bob : user := mkUser 1 "bob" "bob@netify.io" "hash:secret1" None.

Definition one_user_store : store := mkStore [bob] 2.

(** A stand-in for bcrypt: the hash of [p] is ["hash:" ++ p]. *)
Definition toy_hash (p : string) : string := "hash:" ++ p.
Definition toy_compare (p h : string) : bool := String.eqb (toy_hash p) h.

Lemma login_hides_account_existence_witness :
  fst (login String.eqb toy_compare one_user_store (Some "eve@netify.io") (Some "guess12"))
  = fst (login String.eqb toy_compare one_user_store (Some "bob@netify.io") (Some "guess34"))
  /\ fst (login String.eqb toy_compare one_user_store (Some "eve@netify.io") (Some "guess12"))
     = reply 401 (BError "Invalid email or password").
Proof.
  apply (login_hides_account_existence String.eqb toy_compare one_user_store
           "eve@netify.io" "bob@netify.io" "guess12" "guess34" bob []);
    solve [reflexivity | discriminate].
Defined.

Lemma login_empty_field_is_missing_witness :
  (Some "bob@netify.io" = Some "" \/ Some "" = Some "")
  /\ login String.eqb toy_compare one_user_store (Some "bob@netify.io") (Some "")
     = (reply 400 (BError "Email and password are required"), []).
Proof.
  split; [right; reflexivity|].
  apply (login_empty_field_is_missing String.eqb toy_compare one_user_store
           (Some "bob@netify.io") (Some "")).
  right; reflexivity.
Defined.

Lemma register_validates_before_store_witness :
  (String.length (get (Some "abc12")) < 6)%nat
  /\ let '(resp, st', stmts) :=
       register String.eqb toy_hash one_user_store (Some "amy") (Some "amy@netify.io")
                (Some "abc12") None in
     status resp = 400 /\ success (body_of resp) = false
     /\ st' = one_user_store /\ stmts = [].
Proof.
  split; [simpl; lia|].
  apply (register_validates_before_store String.eqb toy_hash one_user_store
           (Some "amy") (Some "amy@netify.io") (Some "abc12") None).
  right; right; right; right. simpl. lia.
Defined.



Lemma search_requires_query_witness :
  (Some "" = None \/ Some "" = Some "")
  /\ search None untitled_provider (Some "") None
     = (reply 400 (BError "Search query is required"), [])
  /\ success (BError "Search query is required") = false.
Proof.
  split; [right; reflexivity|].
  apply (search_requires_query None untitled_provider (Some "") None).
  right; reflexivity.
Defined.

Definition hit (i : string) : searchItem := mkSearchItem (Some i).

(** A search answer with ten hits and 523 results in total. *)
Definition batman_search : omdb :=
  {| Title := None; Year := None; imdbID := None; Plot := None;
     Poster := None; imdbRating := None; imdbVotes := None; Genre := None;
     Runtime := None; Director := None; Actors := None;
     Response := Some "True"; Error := None;
     Search := Some (map hit ["tt01"; "tt02"; "tt03"; "tt04"; "tt05";
                              "tt06"; "tt07"; "tt08"; "tt09"; "tt10"]);
     totalResults := Some "523" |}.

Definition detail_body (i : string) : omdb :=
  {| Title := Some i; Year := Some "2008"; imdbID := Some i; Plot := None;
     Poster := None; imdbRating := Some "9.0"; imdbVotes := Some "2,900,000";
     Genre := Some "Action"; Runtime := Some "152 min";
     Director := Some "N/A"; Actors := None;
     Response := Some "True"; Error := None; Search := None;
     totalResults := None |}.

(** The search call succeeds; axios rejects the detail call of ["tt02"]. *)
Definition batman_provider : provider :=
  fun c => match c with
           | CallSearch _ _ => Some batman_search
           | CallId (Some "tt02") => None
           | CallId (Some i) => Some (detail_body i)
           | _ => None
           end.

Lemma search_caps_details_and_paginates_witness :
  exists resp calls,
    search (Some "secret") batman_provider (Some "batman") None = (resp, calls)
    /\ status resp = 200
    /\ exists searchData pageArg pg movies,
      fetchFromOMDB batman_provider (CallSearch (get (Some "batman")) pageArg)
      = inr searchData
      /\ calls = CallSearch (get (Some "batman")) pageArg
                 :: map (fun item => CallId (item_imdbID item))
                        (limitedResults searchData)
      /\ (List.length (limitedResults searchData) <= 8)%nat
      /\ (forall hits, Search searchData = Some hits ->
                       limitedResults searchData = firstn 8 hits)
      /\ body_of resp = BMovies pg (search_totalPages searchData)
                                (search_totalResults searchData) movies
      /\ (forall s, totalResults searchData = Some s -> is_digits s = true ->
            decimal_value s <= 2 ^ 53 ->
            search_totalPages searchData = JFinite ((decimal_value s + 9) / 10) 0
            /\ search_totalResults searchData = JFinite (decimal_value s) 0)
      /\ (totalResults searchData = None ->
            search_totalPages searchData = JFinite 0 0
            /\ search_totalResults searchData = JFinite 0 0).
Proof.
  eexists. eexists. split; [reflexivity|]. split; [reflexivity|].
  apply (search_caps_details_and_paginates (Some "secret") batman_provider
           (Some "batman") None); reflexivity.
Defined.

(** The search above: eight detail calls out of ten hits, seven movies
    (the detail of ["tt02"] failed), and 53 pages for 523 results. *)
Example batman_search_response :
  let '(resp, calls) := search (Some "secret") batman_provider (Some "batman") None in
  List.length calls = 9%nat
  /\ match body_of resp with
     | BMovies pg tp tr movies =>
         pg = JFinite 1 0 /\ tp = JFinite 53 0 /\ tr = JFinite 523 0
         /\ List.length movies = 7%nat
     | _ => False
     end.
Proof. vm_compute. repeat split. Qed.

(* ================================================================== *)
(** * Further routes of the movies router *)

(** [MOVIE_LISTS] *)
Definition MOVIE_LISTS_popular : list string :=
  ["Inception"; "The Dark Knight"; "Interstellar"; "Avengers Endgame";
   "Avatar"; "Titanic"; "The Matrix"; "Forrest Gump";
   "Pulp Fiction"; "The Shawshank Redemption"; "Fight Club"; "Goodfellas";
   "The Godfather"; "The Lord of the Rings"; "Inception"; "Django Unchained"].

Definition MOVIE_LISTS_top_rated : list string :=
  ["The Shawshank Redemption"; "The Godfather"; "The Dark Knight"; "12 Angry Men";
   "Schindler's List"; "The Lord of the Rings"; "Pulp Fiction"; "Inception";
   "Fight Club"; "Forrest Gump"; "The Matrix"; "Goodfellas";
   "One Flew Over the Cuckoo's Nest"; "Seven"; "Se7en"; "The Silence of the Lambs"].

Definition MOVIE_LISTS_upcoming : list string :=
  ["Dune Part Two"; "Deadpool 3"; "Joker 2"; "Gladiator 2";
   "Avatar 3"; "Mission Impossible"; "Fast X"; "The Marvels";
   "Aquaman 2"; "Wonka"; "The Hunger Games"; "Napoleon";
   "Wish"; "Migration"; "Anyone But You"; "The Color Purple"].

(** The four list routes: [/popular], [/top_rated], [/upcoming] and
    [/now_playing]. *)
Inductive listRoute := Popular | TopRated | Upcoming | NowPlaying.

(** The titles each route hands to [fetchMoviesByTitles];
    [/now_playing] uses [MOVIE_LISTS.popular.slice(0, 8)]. *)
Definition route_titles (r : listRoute) : list string :=
  match r with
  | Popular => MOVIE_LISTS_popular
  | TopRated => MOVIE_LISTS_top_rated
  | Upcoming => MOVIE_LISTS_upcoming
  | NowPlaying => firstn 8 MOVIE_LISTS_popular
  end.

(** A list route handler.  Its [catch] branch is not modelled as a case:
    [fetchMoviesByTitles] catches every failure inside its callbacks, so
    nothing reaches it. *)
Definition list_route (OMDB_API_KEY : option string) (prov : provider)
    (r : listRoute) : response * list call :=
  if key_missing OMDB_API_KEY then
    (reply 500 (BError "OMDb API key not configured"), [])
  else
    let movies := fetchMoviesByTitles prov (route_titles r) in
    (reply 200 (BMovies (JFinite 1 0) (JFinite 1 0)
                        (JFinite (Z.of_nat (List.length movies)) 0) movies),
     map CallTitle (route_titles r)).

(** The body of [GET /api/movies/:id]. *)
Inductive detailBody :=
| DMovie (movie : Movie)            (* {success:true, movie} *)
| DError (message : string).        (* {success:false, message} *)

(** [GET /api/movies/:id] *)
Definition detail_route (OMDB_API_KEY : option string) (prov : provider)
    (i : string) : Z * detailBody * list call :=
  if key_missing OMDB_API_KEY then
    (500, DError "OMDb API key not configured", [])
  else
    match fetchFromOMDB prov (CallId (Some i)) with
    | inl _ => (500, DError "Failed to fetch movie details", [CallId (Some i)])
    | inr data => (200, DMovie (formatMovie data), [CallId (Some i)])
    end.

(* ------------------------------------------------------------------ *)
(** ** The batch fetcher composes over concatenation *)

Lemma drop_null_app l1 l2 : drop_null (l1 ++ l2) = (drop_null l1 ++ drop_null l2)%list.
Proof. unfold drop_null. apply filter_app. Qed.

(** X: fetching the titles of [l1 ++ l2] gives the movies of [l1]
    followed by those of [l2]. *)
Theorem fetchMoviesByTitles_app (prov : provider) (l1 l2 : list string) :
  fetchMoviesByTitles prov (l1 ++ l2)
  = (fetchMoviesByTitles prov l1 ++ fetchMoviesByTitles prov l2)%list.
Proof. unfold fetchMoviesByTitles. rewrite map_app. apply drop_null_app. Qed.

(** X: the batch fetcher returns at most one entry per title and never a
    [null] one; when every call fails it returns the empty array. *)
Theorem fetchMoviesByTitles_bounded (prov : provider) (titles : list string) :
  (List.length (fetchMoviesByTitles prov titles) <= List.length titles)%nat
  /\ ~ In SNull (fetchMoviesByTitles prov titles)
  /\ ((forall t, In t titles -> exists e, fetchFromOMDB prov (CallTitle t) = inl e) ->
      fetchMoviesByTitles prov titles = []).
Proof.
  unfold fetchMoviesByTitles, drop_null. split; [|split].
  - rewrite <- (length_map (fetch_title prov) titles). apply filter_length_le.
  - intros H. apply filter_In in H as [_ H]. discriminate.
  - induction titles as [|t ts IH]; intros Hf; [reflexivity|].
    simpl. destruct (Hf t (or_introl eq_refl)) as [e He].
    unfold fetch_title at 1. rewrite He. simpl.
    apply IH. intros t' Ht'. apply Hf. right. exact Ht'.
Qed.

(* ------------------------------------------------------------------ *)
(** ** The list routes *)

(** X: with a configured key and the same provider, the movies answered by
    [/now_playing] are a prefix of the movies answered by [/popular]. *)
Theorem now_playing_prefix_of_popular (OMDB_API_KEY : option string)
    (prov : provider) :
  key_missing OMDB_API_KEY = false ->
  exists np pop rest,
    body_of (fst (list_route OMDB_API_KEY prov NowPlaying))
    = BMovies (JFinite 1 0) (JFinite 1 0)
              (JFinite (Z.of_nat (List.length np)) 0) np
    /\ body_of (fst (list_route OMDB_API_KEY prov Popular))
       = BMovies (JFinite 1 0) (JFinite 1 0)
                 (JFinite (Z.of_nat (List.length pop)) 0) pop
    /\ pop = (np ++ rest)%list.
Proof.
  intros Hk. unfold list_route. rewrite Hk.
  do 3 eexists. split; [reflexivity|]. split; [reflexivity|].
  change (route_titles Popular) with MOVIE_LISTS_popular.
  rewrite <- (firstn_skipn 8 MOVIE_LISTS_popular) at 1.
  apply fetchMoviesByTitles_app.
Qed.

(* ------------------------------------------------------------------ *)
(** ** The detail route *)

(** X: [GET /api/movies/:id] answers 200 exactly when the key is configured
    and the provider answers the id lookup with a body whose [Response] is
    not ["False"]; the movie is then that body normalized, with no check
    that it has a [Title].  Every other outcome is a 500 with one of two
    fixed messages (the provider's error text is not passed on). *)
Theorem detail_route_outcome (OMDB_API_KEY : option string) (prov : provider)
    (i : string) :
  let '(st, b, calls) := detail_route OMDB_API_KEY prov i in
  (st = 200 /\ key_missing OMDB_API_KEY = false
   /\ exists data, prov (CallId (Some i)) = Some data
                   /\ Response data <> Some "False"
                   /\ b = DMovie (formatMovie data) /\ calls = [CallId (Some i)])
  \/ (st = 500 /\ ((b = DError "OMDb API key not configured" /\ calls = [])
                   \/ (b = DError "Failed to fetch movie details"
                       /\ calls = [CallId (Some i)]))).
Proof.
  unfold detail_route.
  destruct (key_missing OMDB_API_KEY) eqn:Hk.
  { right. split; [reflexivity|]. left. split; reflexivity. }
  unfold fetchFromOMDB.
  destruct (prov (CallId (Some i))) as [data|] eqn:Hp.
  2: { right. split; [reflexivity|]. right. split; reflexivity. }
  destruct (Response data) as [resp|] eqn:Hr.
  - destruct (String.eqb resp "False") eqn:Hf.
    + apply String.eqb_eq in Hf. subst resp.
      right. split; [reflexivity|]. right. split; reflexivity.
    + apply String.eqb_neq in Hf.
      assert (Hm : match resp with
                   | "False" => inl (OMDbError (if truthy (Error data)
                                     then match Error data with Some e => e | None => "" end
                                     else "OMDb API Error"))
                   | _ => inr data
                   end = (inr data : fetch_error + omdb)).
      { repeat (destruct resp as [|? resp]; try reflexivity;
                try (destruct a as [[] [] [] [] [] [] [] []]; try reflexivity)).
        exfalso. apply Hf. reflexivity. }
      rewrite Hm. left. split; [reflexivity|]. split; [reflexivity|].
      exists data. split; [reflexivity|]. split; [congruence|].
      split; reflexivity.
  - left. split; [reflexivity|]. split; [reflexivity|].
    exists data. split; [reflexivity|]. split; [congruence|]. split; reflexivity.
Qed.

(* ------------------------------------------------------------------ *)
(** ** More on the search route *)

(** X: the search route answers either 200 or one of three fixed errors
    (400 for the missing query, 500 for the missing key, 500 for a failed
    provider search); the provider's own error text is never sent. *)
Theorem search_error_messages (OMDB_API_KEY : option string) (prov : provider)
    (query page : option string) :
  let resp := fst (search OMDB_API_KEY prov query page) in
  status resp = 200
  \/ (status resp = 400 /\ body_of resp = BError "Search query is required")
  \/ (status resp = 500 /\ body_of resp = BError "OMDb API key not configured")
  \/ (status resp = 500 /\ body_of resp = BError "Failed to search movies").
Proof.
  cbv zeta. unfold search.
  destruct (truthy query); simpl; [|right; left; split; reflexivity].
  destruct (key_missing OMDB_API_KEY); [right; right; left; split; reflexivity|].
  destruct (fetchFromOMDB _ _); simpl.
  - right; right; right. split; reflexivity.
  - left. reflexivity.
Qed.

(** X: a search the provider answers with [Response: "False"] (OMDb's
    answer when nothing matches) is answered 500 ["Failed to search
    movies"] after that single call, not with an empty list. *)
Theorem search_no_match_is_500 (OMDB_API_KEY : option string) (prov : provider)
    (query page : option string) (data : omdb) :
  truthy query = true -> key_missing OMDB_API_KEY = false ->
  prov (CallSearch (get query) (if truthy page then get page else "1")) = Some data ->
  Response data = Some "False" ->
  search OMDB_API_KEY prov query page
  = (reply 500 (BError "Failed to search movies"),
     [CallSearch (get query) (if truthy page then get page else "1")]).
Proof.
  intros Hq Hk Hp Hr. unfold search. rewrite Hq, Hk. simpl.
  unfold fetchFromOMDB. unfold get in Hp. rewrite Hp, Hr. reflexivity.
Qed.

(** X: when the provider search succeeds, the movies answered are the
    normalized detail answers of the first 8 hits whose detail call
    succeeded, in hit order (so at most 8); the page passed to the provider
    is the [page] parameter or ["1"], and the page answered is its integer
    value (for a digit string denoting at most 2^53), or 1 when it is
    absent, zero or not a number. *)
Theorem search_movies_and_page (OMDB_API_KEY : option string) (prov : provider)
    (query page : option string) (searchData : omdb) :
  truthy query = true -> key_missing OMDB_API_KEY = false ->
  fetchFromOMDB prov (CallSearch (get query) (if truthy page then get page else "1"))
  = inr searchData ->
  exists pg movies,
    fst (search OMDB_API_KEY prov query page)
    = reply 200 (BMovies pg (search_totalPages searchData)
                         (search_totalResults searchData) movies)
    /\ movies = flat_map (fun item =>
                  match fetchFromOMDB prov (CallId (item_imdbID item)) with
                  | inl _ => []
                  | inr details => [SMovie (formatMovie details)]
                  end) (limitedResults searchData)
    /\ (List.length movies <= 8)%nat
    /\ (page = None -> pg = JFinite 1 0)
    /\ (forall p, page = Some p -> is_digits p = true -> decimal_value p <= 2 ^ 53 ->
          pg = if decimal_value p =? 0 then JFinite 1 0
               else JFinite (decimal_value p) 0).
Proof.
  intros Hq Hk Hf. unfold search. rewrite Hq, Hk. simpl. unfold get in Hf.
  rewrite Hf. do 2 eexists. split; [reflexivity|].
  assert (Hm : drop_null (map (fetch_detail prov) (limitedResults searchData))
               = flat_map (fun item =>
                   match fetchFromOMDB prov (CallId (item_imdbID item)) with
                   | inl _ => []
                   | inr details => [SMovie (formatMovie details)]
                   end) (limitedResults searchData)).
  { induction (limitedResults searchData) as [|it its IH]; [reflexivity|].
    simpl. rewrite <- IH. unfold fetch_detail at 1 2.
    destruct (fetchFromOMDB prov (CallId (item_imdbID it))); reflexivity. }
  split; [exact Hm|]. split; [|split].
  - unfold drop_null.
    eapply Nat.le_trans; [apply filter_length_le|].
    rewrite length_map. unfold limitedResults.
    destruct (Search searchData); [apply firstn_le_length | simpl; lia].
  - intros ->. reflexivity.
  - intros p -> Hd Hb. rewrite (parseInt_digits_small p Hd Hb).
    destruct (decimal_value p); reflexivity.
Qed.

(* ================================================================== *)
(** * The users table across registrations *)

Section StoreInvariant.

Variable email_eq : string -> string -> bool.
Variable bcrypt_hash : string -> string.

(** No row's email matches (under the lookup's comparison) a later row's. *)
Fixpoint emails_distinct (l : list user) : Prop :=
  match l with
  | [] => True
  | u :: r => (forall v, In v r -> email_eq (u_email u) (u_email v) = false)
              /\ emails_distinct r
  end.

(** The table's invariant: ids are distinct and below the AUTO_INCREMENT
    counter, and emails are distinct. *)
Definition store_ok (st : store) : Prop :=
  (forall u, In u (rows st) -> u_id u < next_id st)
  /\ NoDup (map u_id (rows st))
  /\ emails_distinct (rows st).

Lemma emails_distinct_snoc l x :
  emails_distinct l ->
  (forall v, In v l -> email_eq (u_email v) (u_email x) = false) ->
  emails_distinct (l ++ [x])%list.
Proof.
  induction l as [|u r IH]; intros Hd Hx; simpl.
  - split; [intros v []|exact I].
  - destruct Hd as [Hu Hr]. split.
    + intros v Hv. apply in_app_or in Hv as [Hv | [<- | []]].
      * apply Hu, Hv.
      * apply Hx. left. reflexivity.
    + apply IH; [exact Hr|]. intros v Hv. apply Hx. right. exact Hv.
Qed.

Lemma select_nil_no_match st e :
  select_by_email email_eq st e = [] ->
  forall v, In v (rows st) -> email_eq (u_email v) e = false.
Proof.
  intros H v Hv. destruct (email_eq (u_email v) e) eqn:E; [|reflexivity].
  exfalso. assert (Hin : In v (select_by_email email_eq st e)).
  { apply filter_In. split; assumption. }
  rewrite H in Hin. exact Hin.
Qed.

End StoreInvariant.

(** X: every registration keeps the table's invariant: ids stay distinct
    and below the counter, and no two rows have matching emails
    (registrations handled one after the other). *)
Theorem register_preserves_store_ok
    (email_eq : string -> string -> bool) (bcrypt_hash : string -> string)
    (st : store) (username email password phone : option string) :
  store_ok email_eq st ->
  let '(_, st', _) :=
    register email_eq bcrypt_hash st username email password phone in
  store_ok email_eq st'.
Proof.
  intros Hok. unfold register.
  destruct (negb _); [exact Hok|].
  destruct (negb _); [exact Hok|].
  destruct (_ <? 6); [exact Hok|].
  destruct (0 <? Z.of_nat (List.length (select_by_email email_eq st (get email))))
    eqn:Hc; [exact Hok|].
  assert (Hx : select_by_email email_eq st (get email) = []).
  { apply Z.ltb_ge in Hc.
    destruct (select_by_email email_eq st (get email)); [reflexivity|].
    cbn [List.length] in Hc. lia. }
  cbv zeta. destruct (row_fits _); [|exact Hok].
  destruct Hok as [Hlt [Hnd Hdist]]. unfold store_ok. cbn [rows next_id].
  split; [|split].
  - intros u Hu. apply in_app_or in Hu as [Hu | [<- | []]].
    + specialize (Hlt u Hu). cbn [next_id]. lia.
    + cbn [next_id u_id]. lia.
  - rewrite map_app. apply NoDup_app; [exact Hnd | constructor; [intros []|constructor] |].
    intros a Ha [Hb | []]. simpl in Hb. subst a.
    apply in_map_iff in Ha as [u [Hu Hin]].
    specialize (Hlt u Hin). lia.
  - apply emails_distinct_snoc; [exact Hdist|].
    intros v Hv. simpl. apply (select_nil_no_match email_eq st (get email) Hx v Hv).
Qed.


(* ================================================================== *)
(** * The browser forms and the server checks
    (auth module of the client, [src/unnamed/part_004]) *)

(** [String.prototype.trim] *)
Definition js_trim (s : string) : string :=
  string_of_list_ascii (trim (list_ascii_of_string s)).

(** [validateEmail]: the same regular expression as the server's. *)
Definition validateEmail (email : string) : bool := emailRegex_test email.

(** What the signup form's submit handler does: show an error, or send
    [{username, email, password, phone}] to [/register]. *)
Inductive signupOutcome :=
| SignupShown (message : string)
| SignupSent (username email password phone : string).

Definition signup_submit (username email password phone : string)
    : signupOutcome :=
  let username := js_trim username in
  let email := js_trim email in
  let phone := js_trim phone in
  if Nat.ltb (String.length username) 3 then
    SignupShown "Username must be at least 3 characters"
  else if negb (validateEmail email) then
    SignupShown "Please enter a valid email address"
  else if Nat.ltb (String.length password) 6 then
    SignupShown "Password must be at least 6 characters"
  else SignupSent username email password phone.

(** What the login form's submit handler does. *)
Inductive loginOutcome :=
| LoginShown (message : string)
| LoginSent (email password : string).

Definition login_submit (email password : string) : loginOutcome :=
  let email := js_trim email in
  if negb (validateEmail email) then
    LoginShown "Please enter a valid email address"
  else if Nat.ltb (String.length password) 6 then
    LoginShown "Password must be at least 6 characters"
  else LoginSent email password.

Lemma emailRegex_nonempty e : emailRegex_test e = true -> e <> "".
Proof. intros H ->. discriminate. Qed.

Lemma length_pos_nonempty s n : (n < String.length s)%nat -> s <> "".
Proof. intros H ->. simpl in H. lia. Qed.

(** X: a registration the signup form sends passes every check the server
    makes before the store: the server never answers it 400, but 201, 409,
    or 500 when a value is longer than its column (the form checks no
    upper bound). *)
Theorem signup_form_passes_server_validation
    (email_eq : string -> string -> bool) (bcrypt_hash : string -> string)
    (st : store) (username email password phone : string)
    (u e p ph : string) :
  signup_submit username email password phone = SignupSent u e p ph ->
  let '(resp, _, _) :=
    register email_eq bcrypt_hash st (Some u) (Some e) (Some p) (Some ph) in
  status resp = 201 \/ status resp = 409 \/ status resp = 500.
Proof.
  unfold signup_submit. cbv zeta.
  destruct (Nat.ltb (String.length (js_trim username)) 3) eqn:H1; [discriminate|].
  destruct (validateEmail (js_trim email)) eqn:H2; [|discriminate]. simpl.
  destruct (Nat.ltb (String.length password) 6) eqn:H3; [discriminate|].
  intros H. injection H as <- <- <- <-.
  apply Nat.ltb_ge in H1, H3.
  rewrite (register_valid_lookup email_eq bcrypt_hash
             (Some (js_trim username)) (Some (js_trim email)) (Some password)
             (Some (js_trim phone))).
  - cbv zeta. destruct (0 <? _); [right; left; reflexivity|].
    destruct (row_fits _); [left|right; right]; reflexivity.
  - apply truthy_Some. apply (length_pos_nonempty _ 2). lia.
  - apply truthy_Some. apply emailRegex_nonempty. exact H2.
  - apply truthy_Some. apply (length_pos_nonempty _ 5). lia.
  - exact H2.
  - exact H3.
Qed.

(** X: a login the login form sends is never answered 400 by the server:
    the answer is 200 or 401. *)
Theorem login_form_passes_server_validation
    (email_eq : string -> string -> bool) (bcrypt_compare : string -> string -> bool)
    (st : store) (email password e p : string) :
  login_submit email password = LoginSent e p ->
  status (fst (login email_eq bcrypt_compare st (Some e) (Some p))) = 200
  \/ status (fst (login email_eq bcrypt_compare st (Some e) (Some p))) = 401.
Proof.
  unfold login_submit. cbv zeta.
  destruct (validateEmail (js_trim email)) eqn:H1; [|discriminate]. simpl.
  destruct (Nat.ltb (String.length password) 6) eqn:H2; [discriminate|].
  intros H. injection H as <- <-.
  apply Nat.ltb_ge in H2.
  unfold login.
  assert (Hp : password <> "") by (apply (length_pos_nonempty _ 5); lia).
  rewrite (truthy_Some _ (emailRegex_nonempty _ H1)), (truthy_Some _ Hp). simpl.
  destruct (select_by_email email_eq st (js_trim email)) as [|x xs]; [right; reflexivity|].
  destruct (bcrypt_compare password (u_password x)); [left|right]; reflexivity.
Qed.

(* ------------------------------------------------------------------ *)
(** ** Instances of the statements above *)

(** Every title lookup succeeds. *)
Definition titles_provider : provider :=
  fun c => match c with
           | CallTitle t => Some (detail_body t)
           | _ => None
           end.

Lemma now_playing_prefix_of_popular_witness :
  key_missing (Some "secret") = false
  /\ exists np pop rest,
    body_of (fst (list_route (Some "secret") titles_provider NowPlaying))
    = BMovies (JFinite 1 0) (JFinite 1 0)
              (JFinite (Z.of_nat (List.length np)) 0) np
    /\ body_of (fst (list_route (Some "secret") titles_provider Popular))
       = BMovies (JFinite 1 0) (JFinite 1 0)
                 (JFinite (Z.of_nat (List.length pop)) 0) pop
    /\ pop = (np ++ rest)%list
    /\ List.length np = 8%nat /\ List.length rest = 8%nat.
Proof.
  split; [reflexivity|].
  destruct (now_playing_prefix_of_popular (Some "secret") titles_provider
              eq_refl) as [np [pop [rest [Hn [Hp Hr]]]]].
  exists np, pop, rest. split; [exact Hn|]. split; [exact Hp|].
  split; [exact Hr|].
  vm_compute in Hn, Hp. injection Hn as _ Hn. injection Hp as _ Hp.
  assert (Ln : List.length np = 8%nat) by (rewrite <- Hn; reflexivity).
  assert (Lp : List.length pop = 16%nat) by (rewrite <- Hp; reflexivity).
  rewrite Hr, length_app in Lp. split; lia.
Defined.

(** OMDb's answer to a search with no hit. *)
Definition no_match_body : omdb :=
  {| Title := None; Year := None; imdbID := None; Plot := None;
     Poster := None; imdbRating := None; imdbVotes := None; Genre := None;
     Runtime := None; Director := None; Actors := None;
     Response := Some "False"; Error := Some "Movie not found!";
     Search := None; totalResults := None |}.

Definition no_match_provider : provider := fun _ => Some no_match_body.

Lemma search_no_match_is_500_witness :
  search (Some "secret") no_match_provider (Some "zzqx") None
  = (reply 500 (BError "Failed to search movies"), [CallSearch "zzqx" "1"]).
Proof.
  apply (search_no_match_is_500 (Some "secret") no_match_provider
           (Some "zzqx") None no_match_body); reflexivity.
Defined.

Lemma search_movies_and_page_witness :
  exists pg movies,
    fst (search (Some "secret") batman_provider (Some "batman") (Some "2"))
    = reply 200 (BMovies pg (search_totalPages batman_search)
                         (search_totalResults batman_search) movies)
    /\ movies = flat_map (fun item =>
                  match fetchFromOMDB batman_provider (CallId (item_imdbID item)) with
                  | inl _ => []
                  | inr details => [SMovie (formatMovie details)]
                  end) (limitedResults batman_search)
    /\ (List.length movies <= 8)%nat
    /\ (Some "2" = None -> pg = JFinite 1 0)
    /\ (forall p, Some "2" = Some p -> is_digits p = true -> decimal_value p <= 2 ^ 53 ->
          pg = if decimal_value p =? 0 then JFinite 1 0
               else JFinite (decimal_value p) 0).
Proof.
  apply (search_movies_and_page (Some "secret") batman_provider
           (Some "batman") (Some "2") batman_search); reflexivity.
Defined.

Lemma one_user_store_ok : store_ok String.eqb one_user_store.
Proof.
  split; [|split].
  - intros u [<-|[]]. reflexivity.
  - constructor; [intros []|constructor].
  - split; [intros v []|exact I].
Qed.

Lemma register_preserves_store_ok_witness :
  store_ok String.eqb one_user_store
  /\ let '(_, st', _) :=
       register String.eqb toy_hash one_user_store (Some "amy")
                (Some "amy@netify.io") (Some "secret1") None in
     store_ok String.eqb st'.
Proof.
  split; [exact one_user_store_ok|].
  apply (register_preserves_store_ok String.eqb toy_hash one_user_store
           (Some "amy") (Some "amy@netify.io") (Some "secret1") None).
  exact one_user_store_ok.
Defined.


Lemma signup_form_passes_server_validation_witness :
  signup_submit " amy " " amy@netify.io " "secret1" " 555 "
  = SignupSent "amy" "amy@netify.io" "secret1" "555"
  /\ let '(resp, _, _) :=
       register String.eqb toy_hash one_user_store (Some "amy")
                (Some "amy@netify.io") (Some "secret1") (Some "555") in
     status resp = 201 \/ status resp = 409 \/ status resp = 500.
Proof.
  split; [reflexivity|].
  apply (signup_form_passes_server_validation String.eqb toy_hash one_user_store
           " amy " " amy@netify.io " "secret1" " 555 ").
  reflexivity.
Defined.

Lemma login_form_passes_server_validation_witness :
  login_submit " bob@netify.io " "secret1" = LoginSent "bob@netify.io" "secret1"
  /\ (status (fst (login String.eqb toy_compare one_user_store
                         (Some "bob@netify.io") (Some "secret1"))) = 200
      \/ status (fst (login String.eqb toy_compare one_user_store
                            (Some "bob@netify.io") (Some "secret1"))) = 401).
Proof.
  split; [reflexivity|].
  apply (login_form_passes_server_validation String.eqb toy_compare one_user_store
           " bob@netify.io " "secret1").
  reflexivity.
Defined.

(* ------------------------------------------------------------------ *)
(** ** Failures of [fetchFromOMDB] and of [register] *)

(** An OMDb answer [Response: "False"] that carries no [Error] field. *)
Definition false_no_error_provider : provider :=
  fun _ => Some {| Title := None; Year := None; imdbID := None; Plot := None;
     Poster := None; imdbRating := None; imdbVotes := None; Genre := None;
     Runtime := None; Director := None; Actors := None;
     Response := Some "False"; Error := None;
     Search := None; totalResults := None |}.

(** X: when [fetchFromOMDB] rejects because OMDb answered
    [Response: "False"], the thrown message is never empty: an [Error]
    field that is missing or empty falls back to ["OMDb API Error"]. *)
Theorem fetchFromOMDB_error_nonempty (prov : provider) (c : call) (msg : string) :
  fetchFromOMDB prov c = inl (OMDbError msg) -> msg <> "".
Proof.
  unfold fetchFromOMDB. destruct (prov c) as [data|]; [|discriminate].
  destruct (Response data) as [s|]; [|discriminate].
  assert (Hm : (if truthy (Error data)
                then match Error data with Some e => e | None => "" end
                else "OMDb API Error") <> "").
  { destruct (Error data) as [e|]; [|discriminate]. simpl.
    destruct (String.eqb e "") eqn:E; [discriminate|]. simpl.
    apply String.eqb_neq, E. }
  revert Hm. generalize (if truthy (Error data)
                then match Error data with Some e => e | None => "" end
                else "OMDb API Error"). intros m Hm H.
  repeat match type of H with
         | context [match ?x with _ => _ end] => destruct x
         end; try discriminate; injection H as <-; exact Hm.
Qed.

Lemma fetchFromOMDB_error_nonempty_witness :
  fetchFromOMDB false_no_error_provider (CallTitle "Nope")
    = inl (OMDbError "OMDb API Error")
  /\ "OMDb API Error" <> "".
Proof.
  split; [reflexivity|].
  apply (fetchFromOMDB_error_nonempty false_no_error_provider (CallTitle "Nope")).
  reflexivity.
Defined.


